(** * ctle: [status_return] and the call-site macros of [_macros.inl]

  A shallow embedding of

    - [src/ctle/status_return.h]: the class template
        [status_return<_StatusType,_ValueType>] and its partial
        specialisation for [_ValueType = void];
    - [src/include/ctle/_macros.inl]: the logging macros and the macros
        that check a returned status and propagate it by [return] or [throw].

  A class is a record, a constructor a function building the record, a
  member function a function on the record.  A macro is a function from
  its arguments (the spelling of an argument where the macro stringizes
  it, its meaning where the macro evaluates it) to a statement of the
  enclosing function; statements live in a small state-and-exit monad. *)

From Stdlib Require Import DecimalString.
From stdpp Require Import base strings list gmap.

Local Open Scope string_scope.

(** ** What the templates ask of their type arguments *)

(** [_StatusType]: value-initialisation ([_StatusType sstatus = {}]), the
  contextual conversion to [bool] that [operator bool] and [!] go
  through, and the text [operator<<] puts into a log message.  [!e] on a
  status is the built-in logical negation of that conversion. *)
Class StatusType (S : Type) := {
  status_init : S;
  to_bool : S -> bool;
  to_text : S -> string
}.

(** [_ValueType]: value-initialisation ([_ValueType svalue = {}]) and the
  state an object is left in once it has been the source of a move. *)
Class ValueType (V : Type) := {
  value_init : V;
  moved_from : V -> V
}.

(** The type [R] of a variable assigned from a [_ValueType]: the value the
  variable holds after [retval = std::move( v )], that is [v] converted
  to [R] by the assignment.  For a variable of the payload's own type it
  is [v] itself. *)
Class Receives (R V : Type) := converted : V -> R.

Definition same_type_receives {V : Type} : Receives V V := fun v => v.

(** ** Compile-time checks *)

Module Cxx.

(** The one property of a type that the templates test. *)
Record type_traits := { is_trivially_copyable : bool }.

Inductive translation :=
  | Compiles
  | Ill_formed (diagnostic : string).

Definition static_assert (condition : bool) (message : string) : translation :=
  if condition then Compiles else Ill_formed message.

(** [None] is [void]. *)
Definition template_argument := option type_traits.

End Cxx.

(** ** [status_return<_StatusType,_ValueType>], general implementation *)

Module General.
Section Class_template.

Context {S V : Type} {status_ops : StatusType S} {value_ops : ValueType V}.

Record status_return := {
  sstatus : S;
  svalue : V
}.

(** The forms an initialisation of a [status_return] can take, one per
    declared constructor. *)
Inductive initializer :=
  | no_arguments
  | copy_of (other : status_return)
  | move_of (other : status_return)
  | of_status (_status : S)
  | of_status_value (_status : S) (_value : V)
  | of_status_rvalue (_status : S) (_value : V)
  | of_value (_value : V)
  | of_rvalue (_value : V).

(** [status_return( const status_return &other ) = default] *)
Definition ctor_copy (other : status_return) : status_return :=
  {| sstatus := sstatus other; svalue := svalue other |}.

(** [status_return( status_return &&other ) = default]: member-wise
    move; the second component is what [other] is left as. *)
Definition ctor_move (other : status_return) : status_return * status_return :=
  ({| sstatus := sstatus other; svalue := svalue other |},
     {| sstatus := sstatus other; svalue := moved_from (svalue other) |}).

(** [status_return( _StatusType _status ) : sstatus(_status) {}] *)
Definition ctor_status (_status : S) : status_return :=
  {| sstatus := _status; svalue := value_init |}.

(** [status_return( _StatusType _status, const _ValueType &_value )] *)
Definition ctor_status_value (_status : S) (_value : V) : status_return :=
  {| sstatus := _status; svalue := _value |}.

(** [status_return( _StatusType _status, _ValueType &&_value )]; the
    second component is what the argument is left as. *)
Definition ctor_status_rvalue (_status : S) (_value : V) : status_return * V :=
  ({| sstatus := _status; svalue := _value |}, moved_from _value).

(** [status_return( const _ValueType &_value ) : svalue(_value) {}] *)
Definition ctor_value (_value : V) : status_return :=
  {| sstatus := status_init; svalue := _value |}.

(** [status_return( _ValueType &&_value )] *)
Definition ctor_rvalue (_value : V) : status_return * V :=
  ({| sstatus := status_init; svalue := _value |}, moved_from _value).

(** The object an initialisation produces, if it compiles; [is_same]
    tells whether [_StatusType] and [_ValueType] are the same type.
    [status_return() = delete] leaves the empty argument list without an
    object.  For one argument of a type that is both [_StatusType] and
    [_ValueType], the constructor taking [_StatusType] by value and the
    ones taking [const _ValueType &] and [_ValueType &&] are all exact
    matches and none is better than the by-value one: the call is
    ambiguous and there is no object either. *)
Definition construct (is_same : bool) (i : initializer) : option status_return :=
  match i with
  | no_arguments => None
  | copy_of other => Some (ctor_copy other)
  | move_of other => Some (fst (ctor_move other))
  | of_status s => if is_same then None else Some (ctor_status s)
  | of_status_value s v => Some (ctor_status_value s v)
  | of_status_rvalue s v => Some (fst (ctor_status_rvalue s v))
  | of_value v => if is_same then None else Some (ctor_value v)
  | of_rvalue v => if is_same then None else Some (fst (ctor_rvalue v))
  end.

(** [operator bool() const { return this->sstatus; }] *)
Definition operator_bool (this : status_return) : bool := to_bool (sstatus this).

(** [bool operator !() const { return !(this->sstatus); }] *)
Definition operator_not (this : status_return) : bool := negb (to_bool (sstatus this)).

(** [_StatusType status() const { return this->sstatus; }] *)
Definition status (this : status_return) : S := sstatus this.

(** [_ValueType &value() { return this->svalue; }] *)
Definition value (this : status_return) : V := svalue this.

End Class_template.

Arguments status_return S V : clear implicits.
Arguments initializer S V : clear implicits.

(** The [static_assert] at the head of the class body. *)
Definition instantiate (_StatusType _ValueType : Cxx.type_traits) : Cxx.translation :=
  Cxx.static_assert (Cxx.is_trivially_copyable _StatusType)
  "_StatusType needs to be trivially copyable, like a plain old value, like bool, int or enum, or a class with a default copy ctor".

End General.

(** ** [status_return<_StatusType,void>], status only *)

Module StatusOnly.
Section Class_template.

Context {S : Type} {status_ops : StatusType S}.

Record status_return := { sstatus : S }.

Inductive initializer :=
  | no_arguments
  | copy_of (other : status_return)
  | move_of (other : status_return)
  | of_status (_status : S).

Definition ctor_copy (other : status_return) : status_return :=
  {| sstatus := sstatus other |}.

Definition ctor_move (other : status_return) : status_return * status_return :=
  ({| sstatus := sstatus other |}, {| sstatus := sstatus other |}).

(** [status_return( const _StatusType _status ) : sstatus(_status) {}] *)
Definition ctor_status (_status : S) : status_return :=
  {| sstatus := _status |}.

Definition construct (i : initializer) : option status_return :=
  match i with
  | no_arguments => None
  | copy_of other => Some (ctor_copy other)
  | move_of other => Some (fst (ctor_move other))
  | of_status s => Some (ctor_status s)
  end.

Definition operator_bool (this : status_return) : bool := to_bool (sstatus this).

Definition operator_not (this : status_return) : bool := negb (to_bool (sstatus this)).

Definition status (this : status_return) : S := sstatus this.

End Class_template.

Arguments status_return S : clear implicits.
Arguments initializer S : clear implicits.

Definition instantiate (_StatusType : Cxx.type_traits) : Cxx.translation :=
  Cxx.static_assert (Cxx.is_trivially_copyable _StatusType)
  "_StatusType needs to be trivially copyable, like a plain old value, like bool, int or enum, or a class with a default copy ctor".

End StatusOnly.

(** Template selection: the partial specialisation is chosen when
  [_ValueType] is [void]. *)
Definition instantiate_status_return
  (_StatusType : Cxx.type_traits) (_ValueType : Cxx.template_argument) : Cxx.translation :=
  match _ValueType with
  | Some v => General.instantiate _StatusType v
  | None => StatusOnly.instantiate _StatusType
  end.

(** ** The collaborators of the macros *)

Module Log.

(** Modelled from the spec: [ctle::log_level], declared in the logging
    header.  Five severities, ordered numerically
    error < warning < info < debug < verbose. *)
Inductive log_level := error | warning | info | debug | verbose.

Definition underlying (l : log_level) : nat :=
  match l with
  | error => 0
  | warning => 1
  | info => 2
  | debug => 3
  | verbose => 4
  end.

(** [a <= b] on the scoped enumeration compares the underlying values. *)
Definition level_le (a b : log_level) : bool := (underlying a <=? underlying b)%nat.

(** [__FILE__], [__LINE__] and [_CTLE_FUNCTION_SIGNATURE] where a macro
    is expanded. *)
Record call_site := {
  file : string;
  line : nat;
  function_signature : string
}.

(** Modelled from the spec: [ctle::log_msg], declared in the logging
    header: built from (level, file, line, function signature), filled
    through [message()], and entered into the log when it goes out of
    scope. *)
Record log_msg := {
  msg_level : log_level;
  msg_file : string;
  msg_line : nat;
  msg_function : string;
  message : string
}.

End Log.

Import Log.

(** [_CTLE_STRINGIZE(__LINE__)]: the decimal spelling of the line number. *)
Definition _CTLE_STRINGIZE (n : nat) : string :=
  NilZero.string_of_uint (Nat.to_uint n).

(** ** Statements of the enclosing function *)

Section Macros.

(** [status] is [ctle::status] (declared in the status header, taken here
    as any type with the [StatusType] operations), [V] the type of the
    payload, [R] the type of the variables that receive it, [G] whatever
    else the program can reach. *)
Context {status V R G : Type}.
Context {status_ops : StatusType status} {value_ops : ValueType V}.
Context {receives : Receives R V}.

Record world := {
  log : list log_msg;
  global_log_level : log_level;
  locals : gmap string R;
  globals : G
}.

(** Modelled from the spec: [ctle::status_error], declared in the status
    header: the exception built from a [ctle::status]; beside it,
    [std::runtime_error] with its message. *)
Inductive exception :=
  | runtime_error (what : string)
  | status_error (s : status).

(** An expression yields a value or throws. *)
Inductive evaluation (A : Type) :=
  | Value (a : A)
  | Raises (e : exception).

Definition expr (A : Type) := world -> evaluation A * world.

(** A statement falls through to the next one, returns from the
    enclosing function, or throws. *)
Inductive completion (A : Type) :=
  | Normal (a : A)
  | Return (s : status)
  | Throw (e : exception).

Definition stmt (A : Type) := world -> completion A * world.

Definition ret {A} (a : A) : stmt A := fun w => (Normal A a, w).

Definition bind {A B} (m : stmt A) (k : A -> stmt B) : stmt B :=
  fun w =>
    match m w with
    | (Normal _ a, w') => k a w'
    | (Return _ s, w') => (Return B s, w')
    | (Throw _ e, w') => (Throw B e, w')
    end.

Definition return_ {A} (s : status) : stmt A := fun w => (Return A s, w).

Definition throw {A} (e : exception) : stmt A := fun w => (Throw A e, w).

Definition eval {A} (e : expr A) : stmt A :=
  fun w =>
    match e w with
    | (Value _ a, w') => (Normal A a, w')
    | (Raises _ x, w') => (Throw A x, w')
    end.

(** [ctle::get_global_log_level()] *)
Definition get_global_log_level : stmt log_level :=
  fun w => (Normal _ (global_log_level w), w).

(** The world with one more entry at the end of the log. *)
Definition push_log (m : log_msg) (w : world) : world :=
  {| log := log w ++ [m];
     global_log_level := global_log_level w;
     locals := locals w;
     globals := globals w |}.

(** The world with the variable [x] holding [v]. *)
Definition set_local (x : string) (v : R) (w : world) : world :=
  {| log := log w;
     global_log_level := global_log_level w;
     locals := <[x := v]> (locals w);
     globals := globals w |}.

(** The entry leaves scope at the closing brace of [ctLogEnd]. *)
Definition emit (m : log_msg) : stmt unit :=
  fun w => (Normal _ tt, push_log m w).

(** [retval = std::move( source )]: [retval] holds [source] converted to
    its own type; yields what [source] is left as. *)
Definition move_assign (retval : string) (source : V) : stmt V :=
  fun w => (Normal _ (moved_from source), set_local retval (converted source) w).

Notation "x <- m ;; k" := (bind m (fun x => k))
  (at level 100, m at next level, right associativity).
Notation "m ;; k" := (bind m (fun _ => k))
  (at level 100, right associativity).

(** ** The macros of [_macros.inl]

    Each takes the [call_site] it is expanded at.  An argument the macro
    stringizes ([#s]) comes as its spelling, an argument it evaluates as
    an [expr]. *)

(** [ctLogEnd] streams an empty literal and closes the block. *)
Definition ctLogEnd : string := EmptyString.

(** [ctLogLevel( msg_level ) << text << ctLogEnd] *)
Definition ctLogLevel (msg_level : log_level) (here : call_site) (text : string) : stmt unit :=
  threshold <- get_global_log_level ;;
  if level_le msg_level threshold then
    emit {| msg_level := msg_level;
            msg_file := file here;
            msg_line := line here;
            msg_function := function_signature here;
            message := text +:+ ctLogEnd |}
  else
    ret tt.

Definition ctLogError := ctLogLevel error.
Definition ctLogWarning := ctLogLevel warning.
Definition ctLogInfo := ctLogLevel info.
Definition ctLogDebug := ctLogLevel debug.
Definition ctLogVerbose := ctLogLevel verbose.

(** [ctValidate( statement , error_code_on_error ) << text << ctValidateEnd] *)
Definition ctValidate (here : call_site)
    (statement : expr bool) (error_code_on_error : expr status) (text : string) : stmt unit :=
  holds <- eval statement ;;
  if negb holds then
    _ctle_error_code <- eval error_code_on_error ;;
    ctLogError here text ;;
    return_ _ctle_error_code
  else
    ret tt.

(** [ctSanityCheck( statement )]; [NDEBUG] tells whether the macro of that
    name is defined where [_macros.inl] is included. *)
Definition ctSanityCheck (NDEBUG : bool) (here : call_site)
    (statement_text : string) (statement : expr bool) : stmt unit :=
  if NDEBUG then
    ret tt
  else
    holds <- eval statement ;;
    if negb holds then
      ctLogError here ("SanityCheck failed: " +:+ statement_text) ;;
      let err_val :=
        ("SanityCheck " +:+ statement_text +:+ " failed in " +:+ file here
           +:+ " line " +:+ _CTLE_STRINGIZE (line here) +:+ " function ")
          +:+ function_signature here in
      throw (runtime_error err_val)
    else
      ret tt.

(** [ctStatusCall( s )] *)
Definition ctStatusCall (here : call_site) (s_text : string) (s : expr status) : stmt unit :=
  _ctle_call_status <- eval s ;;
  if negb (to_bool _ctle_call_status) then
    ctLogError here
      ("Call: " +:+ s_text +:+ " failed, returned status_code: "
         +:+ to_text _ctle_call_status) ;;
    return_ _ctle_call_status
  else
    ret tt.

(** [ctStatusReturnCall( retval , scall )]; [retval] names the receiving
    variable. *)
Definition ctStatusReturnCall (here : call_site) (retval : string)
    (scall_text : string) (scall : expr (General.status_return status V)) : stmt unit :=
  _ctle_call_statuspair <- eval scall ;;
  if negb (to_bool (General.status _ctle_call_statuspair)) then
    ctLogError here
      ("Call: " +:+ scall_text +:+ " failed, returned status_code: "
         +:+ to_text (General.status _ctle_call_statuspair)) ;;
    return_ (General.status _ctle_call_statuspair)
  else
    _ <- move_assign retval (General.value _ctle_call_statuspair) ;;
    ret tt.

(** [ctStatusCallThrow( s )] *)
Definition ctStatusCallThrow (here : call_site) (s_text : string) (s : expr status) : stmt unit :=
  _ctle_call_status <- eval s ;;
  if negb (to_bool _ctle_call_status) then
    ctLogError here
      ("Call: " +:+ s_text +:+ " failed, returned status_code: "
         +:+ to_text _ctle_call_status +:+ ", throwing a status_error exception") ;;
    throw (status_error _ctle_call_status)
  else
    ret tt.

End Macros.

Arguments world R G : clear implicits.
Arguments exception status : clear implicits.
Arguments evaluation status A : clear implicits.
Arguments completion status A : clear implicits.
Arguments expr status R G A : clear implicits.
Arguments stmt status R G A : clear implicits.
Arguments Value {status A} a.
Arguments Raises {status A} e.
Arguments Normal {status A} a.
Arguments Return {status A} s.
Arguments Throw {status A} e.

(** [needle] occurs in [haystack]. *)
Definition contains (needle haystack : string) : Prop :=
  exists before after, haystack = before +:+ needle +:+ after.

(** The entry [ctLogError << text << ctLogEnd] makes at [here]. *)
Definition error_entry (here : call_site) (text : string) : log_msg :=
  {| msg_level := error;
     msg_file := file here;
     msg_line := line here;
     msg_function := function_signature here;
     message := text |}.

(** ** Concrete instances: [bool] as status, [Z] as payload *)

Module Scenario.

#[export] Instance bool_status : StatusType bool := {
  status_init := false;
  to_bool := fun b => b;
  to_text := fun b => if b then "1" else "0"
}.

#[export] Instance int_value : ValueType Z := {
  value_init := 0%Z;
  moved_from := fun z => z
}.

(** [int x] assigned from an [int] payload. *)
#[export] Instance int_receives_int : Receives Z Z := same_type_receives.

Definition here : call_site :=
  {| file := "caller.cpp"; line := 17; function_signature := "bool caller()" |}.

(** A program state: nothing logged, threshold [info], [x] holding 7, and
    a counter of how often the callee has run. *)
Definition start : world Z nat :=
  {| log := []; global_log_level := info; locals := {[ "x" := 7%Z ]}; globals := 0 |}.

Definition ran (w : world Z nat) : world Z nat :=
  {| log := log w; global_log_level := global_log_level w;
     locals := locals w; globals := Datatypes.S (globals w) |}.

(** [bool op()] returning [result], counting its runs. *)
Definition op (result : bool) : expr bool Z nat bool :=
  fun w => (Value result, ran w).

(** [status_return<bool,int> produce()] returning [status_return(true, 42)]. *)
Definition produce_ok : expr bool Z nat (General.status_return bool Z) :=
  fun w => (Value (General.ctor_status_value true 42%Z), ran w).

(** [status_return<bool,int> produce()] returning [status_return(false)]. *)
Definition produce_fail : expr bool Z nat (General.status_return bool Z) :=
  fun w => (Value (General.ctor_status false), ran w).

End Scenario.

(** ** Inclusion of [_macros.inl] *)

Module Preprocessor.

(** The macro names defined at a point of a translation unit.  Only the
    names are tracked, which is all that [#ifdef] and [defined] look at. *)
Definition _CTLE_MACROS_INCLUDED : string := "_CTLE_MACROS_INCLUDED".

Inductive inclusion :=
  | Error_directive (message : string)
  | Included (defined : gset string).

(** The unconditional [#define]s of the file, the marker apart. *)
Definition convenience_macros : list string :=
  [ "_CTLE_STRINGIZE_DETAIL"; "_CTLE_STRINGIZE";
    "ctLogLevel"; "ctLogError"; "ctLogWarning"; "ctLogInfo"; "ctLogDebug";
    "ctLogVerbose"; "ctLogEnd"; "ctLogThis";
    "ctValidate"; "ctValidateEnd"; "ctSanityCheck";
    "ctStatusCall"; "ctStatusReturnCall"; "ctStatusAutoReturnCall";
    "ctStatusCallThrow" ].

(** What [_CTLE_FUNCTION_SIGNATURE] is defined as by
    [#if defined(_MSC_VER) ... #elif defined(__GNUC__) ... #endif]. *)
Definition function_signature_macro (defined : gset string) : option string :=
  if decide ("_MSC_VER" ∈ defined) then Some "__FUNCSIG__"
  else if decide ("__GNUC__" ∈ defined) then Some "__PRETTY_FUNCTION__"
  else None.

(** [#include "_macros.inl"] *)
Definition include_macros_inl (defined : gset string) : inclusion :=
  if decide (_CTLE_MACROS_INCLUDED ∈ defined) then
    Error_directive
      "The _macros.inl file is included more than once, without including _undef_macros.inl to undefine the macros before the next include of _macros.inl"
  else
    Included
      (defined ∪ {[ _CTLE_MACROS_INCLUDED ]}
         ∪ (match function_signature_macro defined with
            | Some _ => {[ "_CTLE_FUNCTION_SIGNATURE" ]}
            | None => ∅
            end)
         ∪ list_to_set convenience_macros).

End Preprocessor.

(** ** The macros in use *)

Section Usage.

Context {status V R G : Type}.
Context {status_ops : StatusType status} {value_ops : ValueType V}.
Context {receives : Receives R V}.

Local Abbreviation world := (world R G).
Local Abbreviation expr := (expr status R G).
Local Abbreviation stmt := (stmt status R G).

(** [ctLogThis]: [ctLogInfo << this << ctLogEnd;], given the text the
    pointer is printed as. *)
Definition ctLogThis (here : call_site) (this_text : string) : stmt unit :=
  ctLogInfo here this_text.

(** [r.value() = v]: assignment through the reference [value()] returns. *)
Definition assign_value (this : General.status_return status V) (v : V)
  : General.status_return status V :=
  {| General.sstatus := General.sstatus this; General.svalue := v |}.

(** [std::move( r.value() )] consumed: the value obtained and what [r] is
    left as. *)
Definition take_value (this : General.status_return status V)
  : V * General.status_return status V :=
  (General.value this,
   {| General.sstatus := General.sstatus this;
      General.svalue := moved_from (General.svalue this) |}).

(** A function body made of [ctStatusCall]s, one after the other. *)
Fixpoint status_calls (calls : list (call_site * string * expr status)) : stmt unit :=
  match calls with
  | [] => ret tt
  | c :: rest =>
      bind (ctStatusCall (fst (fst c)) (snd (fst c)) (snd c)) (fun _ => status_calls rest)
  end.

(** Every call of the list, run in turn from [w], returns a status that
    converts to [true]; [w'] is the world after the last one. *)
Inductive all_succeed : list (call_site * string * expr status) -> world -> world -> Prop :=
  | all_succeed_nil (w : world) : all_succeed [] w w
  | all_succeed_cons (c : call_site * string * expr status)
      (rest : list (call_site * string * expr status)) (w w1 w2 : world) (st : status) :
      snd c w = (Value st, w1) ->
      to_bool st = true ->
      all_succeed rest w1 w2 ->
      all_succeed (c :: rest) w w2.

(** The callee starts with variables of its own. *)
Definition enter_frame (w : world) : world :=
  {| log := log w;
     global_log_level := global_log_level w;
     locals := ∅;
     globals := globals w |}.

(** Back in the caller, its variables are as they were. *)
Definition leave_frame (caller w : world) : world :=
  {| log := log w;
     global_log_level := global_log_level w;
     locals := locals caller;
     globals := globals w |}.

(** The call [f()] of [ctle::status f() { body; return result; }]. *)
Definition call_function (body : stmt unit) (result : status) : expr status :=
  fun w =>
    match body (enter_frame w) with
    | (Normal _, w') => (Value result, leave_frame w w')
    | (Return st, w') => (Value st, leave_frame w w')
    | (Throw e, w') => (Raises e, leave_frame w w')
    end.

(** The call [f()] of
    [status_return<ctle::status,V> f() { body; return result; }]: a status
    returned from inside [body] becomes the pair through the converting
    constructor [status_return( _StatusType _status )]. *)
Definition call_pair_function (body : stmt unit) (result : General.status_return status V)
  : expr (General.status_return status V) :=
  fun w =>
    match body (enter_frame w) with
    | (Normal _, w') => (Value result, leave_frame w w')
    | (Return st, w') => (Value (General.ctor_status st), leave_frame w w')
    | (Throw e, w') => (Raises e, leave_frame w w')
    end.

(** [op] reached through a chain of functions, each of which is
    [{ ctStatusCall( inner() ); return ok; }]; the first site of the list
    is the outermost. *)
Fixpoint forwarded (sites : list (call_site * string)) (op : expr status) (ok : status)
  : expr status :=
  match sites with
  | [] => op
  | site :: rest =>
      call_function (ctStatusCall (fst site) (snd site) (forwarded rest op ok)) ok
  end.

(** The entry a [ctStatusCall] at [site] makes for the status [st]. *)
Definition call_failed_entry (st : status) (site : call_site * string) : log_msg :=
  error_entry (fst site)
    ("Call: " +:+ snd site +:+ " failed, returned status_code: " +:+ to_text st).

(** An expression that leaves the entries of the log in place and the
    global log level as it is. *)
Definition respects_log {A} (e : expr A) : Prop :=
  forall w, log w `prefix_of` log (snd (e w))
            /\ global_log_level (snd (e w)) = global_log_level w.

End Usage.

Module More_scenario.

Import Scenario.

(** [bool op()] throwing instead of returning. *)
Definition op_throws : expr bool Z nat bool :=
  fun w => (Raises (runtime_error "out of disk"), ran w).

Definition produce_throws : expr bool Z nat (General.status_return bool Z) :=
  fun w => (Raises (runtime_error "out of disk"), ran w).

Definition outer : call_site :=
  {| file := "main.cpp"; line := 5; function_signature := "bool run()" |}.

(** [start] with every level enabled. *)
Definition chatty : world Z nat :=
  {| log := []; global_log_level := verbose; locals := {[ "x" := 7%Z ]}; globals := 0 |}.

End More_scenario.

(** ** Concrete instances: same types, and a narrower receiver *)

Module Conversions.

Import Scenario.

#[export] Instance bool_value : ValueType bool := {
  value_init := false;
  moved_from := fun b => b
}.

(** A [long long] converted to [int]: reduced modulo 2^32 into the range
    of [int]. *)
Definition to_int (z : Z) : Z := ((z + 2147483648) mod 4294967296 - 2147483648)%Z.

(** [int x] assigned from a [long long] payload. *)
Definition int_receives_long_long : Receives Z Z := to_int.

(** [status_return<bool,long long> produce_big()] returning
    [status_return(true, 4294967301)]. *)
Definition produce_big : expr bool Z nat (General.status_return bool Z) :=
  fun w => (Value (General.ctor_status_value true 4294967301%Z), ran w).

End Conversions.

(** * Properties *)

(** ** Strings *)

Lemma append_empty_r (s : string) : s +:+ EmptyString = s.
Proof.
  induction s as [|c s IH]; [reflexivity |].
  change (String c (s +:+ EmptyString) = String c s). now rewrite IH.
Qed.



Lemma contains_suffix (before needle : string) : contains needle (before +:+ needle).
Proof. exists before, EmptyString. now rewrite append_empty_r. Qed.

(** ** The log threshold *)

Lemma level_le_spec (a b : log_level) :
  level_le a b = bool_decide (underlying a <= underlying b)%nat.
Proof.
  unfold level_le. destruct (Nat.leb_spec (underlying a) (underlying b)) as [Hle|Hgt].
  - now rewrite bool_decide_eq_true_2.
  - rewrite bool_decide_eq_false_2; [reflexivity | lia].
Qed.

Lemma error_is_least (threshold : log_level) : level_le error threshold = true.
Proof. now destruct threshold. Qed.

(** ** Running statements *)

Section Running.

Context {status V R G : Type}.
Context {status_ops : StatusType status} {value_ops : ValueType V}.
Context {receives : Receives R V}.

Local Abbreviation world := (world R G).
Local Abbreviation expr := (expr status R G).
Local Abbreviation stmt := (stmt status R G).

Lemma bind_eval_value {A B} (e : expr A) (k : A -> stmt B) (w w' : world) (a : A) :
  e w = (Value a, w') -> bind (eval e) k w = k a w'.
Proof. intros He. unfold bind, eval. now rewrite He. Qed.

Lemma bind_eval_raises {A B} (e : expr A) (k : A -> stmt B) (w w' : world) (x : exception status) :
  e w = (Raises x, w') -> bind (eval e) k w = (Throw x, w').
Proof. intros He. unfold bind, eval. now rewrite He. Qed.

Lemma ctLogLevel_run (lvl : log_level) (here : call_site) (text : string) (w : world) :
  ctLogLevel lvl here text w =
    (Normal (status := status) tt,
     if level_le lvl (global_log_level w)
     then push_log {| msg_level := lvl; msg_file := file here; msg_line := line here;
                      msg_function := function_signature here; message := text |} w
     else w).
Proof.
  unfold ctLogLevel, bind, get_global_log_level, ctLogEnd.
  rewrite append_empty_r. now destruct (level_le lvl (global_log_level w)).
Qed.

Lemma ctLogError_run (here : call_site) (text : string) (w : world) :
  ctLogError here text w =
    (Normal (status := status) tt, push_log (error_entry here text) w).
Proof. unfold ctLogError. now rewrite ctLogLevel_run, error_is_least. Qed.

Lemma bind_ctLogError {B} (here : call_site) (text : string) (k : unit -> stmt B) (w : world) :
  bind (ctLogError here text) k w = k tt (push_log (error_entry here text) w).
Proof. unfold bind. now rewrite ctLogError_run. Qed.

Lemma ctStatusCall_run (here : call_site) (s_text : string) (s : expr status) (w : world) :
  ctStatusCall here s_text s w =
    match s w with
    | (Value st, w') =>
        if to_bool st then (Normal tt, w')
        else (Return st,
              push_log (error_entry here
                ("Call: " +:+ s_text +:+ " failed, returned status_code: "
                   +:+ to_text st)) w')
    | (Raises e, w') => (Throw e, w')
    end.
Proof.
  unfold ctStatusCall, bind at 1, eval.
  destruct (s w) as [[st|e] w']; [| reflexivity].
  destruct (to_bool st); cbn [negb]; [reflexivity |].
  now rewrite bind_ctLogError.
Qed.

Lemma ctStatusReturnCall_run (here : call_site) (retval scall_text : string)
    (scall : expr (General.status_return status V)) (w : world) :
  ctStatusReturnCall here retval scall_text scall w =
    match scall w with
    | (Value returned, w') =>
        if to_bool (General.status returned)
        then (Normal tt, set_local retval (converted (General.value returned)) w')
        else (Return (General.status returned),
              push_log (error_entry here
                ("Call: " +:+ scall_text +:+ " failed, returned status_code: "
                   +:+ to_text (General.status returned))) w')
    | (Raises e, w') => (Throw e, w')
    end.
Proof.
  unfold ctStatusReturnCall, bind at 1, eval.
  destruct (scall w) as [[returned|e] w']; [| reflexivity].
  destruct (to_bool (General.status returned)); cbn [negb]; [reflexivity |].
  now rewrite bind_ctLogError.
Qed.

Lemma ctStatusCallThrow_run (here : call_site) (s_text : string) (s : expr status) (w : world) :
  ctStatusCallThrow here s_text s w =
    match s w with
    | (Value st, w') =>
        if to_bool st then (Normal tt, w')
        else (Throw (status_error st),
              push_log (error_entry here
                ("Call: " +:+ s_text +:+ " failed, returned status_code: "
                   +:+ to_text st +:+ ", throwing a status_error exception")) w')
    | (Raises e, w') => (Throw e, w')
    end.
Proof.
  unfold ctStatusCallThrow, bind at 1, eval.
  destruct (s w) as [[st|e] w']; [| reflexivity].
  destruct (to_bool st); cbn [negb]; [reflexivity |].
  now rewrite bind_ctLogError.
Qed.

End Running.

(** A macro whose first step is to evaluate its argument: rewrite with the
    result of that evaluation, then with the log statement if one follows. *)
Ltac run_call Hcall :=
  rewrite (bind_eval_value _ _ _ _ _ Hcall); cbn beta;
  repeat match goal with
         | Hb : to_bool _ = _ |- _ => rewrite Hb
         end;
  cbn [negb]; rewrite ?bind_ctLogError; try reflexivity.

(** ** [status_return] *)

(** C1: a [status_return<S,V>] built from a status [s] and a value [v],
    through the copying or the moving two-argument constructor, gives back
    exactly [s] from [status()] and exactly [v] from [value()].  No
    property of [S] is used, so this holds in particular for every
    trivially copyable [S]. *)
Theorem status_return_status_value_roundtrip
    (S V : Type) (status_ops : StatusType S) (value_ops : ValueType V) (s : S) (v : V)
    (is_same : bool) :
  General.status (General.ctor_status_value s v) = s
  /\ General.value (General.ctor_status_value s v) = v
  /\ General.status (fst (General.ctor_status_rvalue s v)) = s
  /\ General.value (fst (General.ctor_status_rvalue s v)) = v
  /\ General.construct is_same (General.of_status_value s v)
     = Some {| General.sstatus := s; General.svalue := v |}
  /\ General.construct is_same (General.of_status_rvalue s v)
     = Some {| General.sstatus := s; General.svalue := v |}.
Proof. repeat split. Qed.

(** C4: when [_StatusType] and [_ValueType] are different types: built
    from a status alone, [value()] is a value-initialised [V]; built from
    a value alone (copied or moved), [status()] is a value-initialised
    [S]; every initialisation that yields an object fills both members,
    and the only one that yields none is the one without arguments, whose
    constructor is deleted, in the general and in the status-only form. *)
Theorem status_return_unset_half_is_default
    (S V : Type) (status_ops : StatusType S) (value_ops : ValueType V) (s : S) (v : V) :
  General.construct false (General.of_status s) = Some (General.ctor_status s)
  /\ General.construct false (General.of_value v) = Some (General.ctor_value v)
  /\ General.construct false (General.of_rvalue v) = Some (fst (General.ctor_rvalue v))
  /\ General.value (General.ctor_status s) = value_init
  /\ General.status (General.ctor_status s) = s
  /\ General.status (General.ctor_value v) = status_init
  /\ General.value (General.ctor_value v) = v
  /\ General.status (fst (General.ctor_rvalue v)) = status_init
  /\ General.value (fst (General.ctor_rvalue v)) = v
  /\ (forall is_same : bool,
        General.construct is_same (General.no_arguments (S := S) (V := V)) = None)
  /\ StatusOnly.construct (StatusOnly.no_arguments (S := S)) = None
  /\ (forall i : General.initializer S V,
        General.construct false i = None <-> i = General.no_arguments)
  /\ (forall i : StatusOnly.initializer S,
        StatusOnly.construct i = None <-> i = StatusOnly.no_arguments).
Proof.
  repeat split; try reflexivity; try (intros ->; reflexivity).
  - destruct i; cbn; congruence.
  - destruct i; cbn; congruence.
Qed.

(** Against C4 as first stated, for every [S] and [V]: with [bool] for
    both, an initialisation from a status alone yields no object at all,
    so none whose value is value-initialised. *)
Lemma status_return_single_argument_is_ambiguous_for_same_type :
  ~ (exists r : General.status_return bool bool,
        General.construct (status_ops := Scenario.bool_status)
          (value_ops := Conversions.bool_value) true (General.of_status true) = Some r
        /\ General.value r = value_init (ValueType := Conversions.bool_value)).
Proof. intros (r & Hr & _). discriminate Hr. Qed.

(** C5: in both forms, [operator bool] of the pair is the conversion to
    [bool] of its status, and [operator !] is the negation of that same
    boolean; spelled out for a truthy and for a falsy status. *)
Theorem status_return_bool_is_status_bool
    (S V : Type) (status_ops : StatusType S) (value_ops : ValueType V)
    (r : General.status_return S V) (r0 : StatusOnly.status_return S) :
  General.operator_bool r = to_bool (General.status r)
  /\ General.operator_not r = negb (General.operator_bool r)
  /\ StatusOnly.operator_bool r0 = to_bool (StatusOnly.status r0)
  /\ StatusOnly.operator_not r0 = negb (StatusOnly.operator_bool r0)
  /\ (if to_bool (General.status r)
      then General.operator_bool r = true /\ General.operator_not r = false
      else General.operator_bool r = false /\ General.operator_not r = true)
  /\ (if to_bool (StatusOnly.status r0)
      then StatusOnly.operator_bool r0 = true /\ StatusOnly.operator_not r0 = false
      else StatusOnly.operator_bool r0 = false /\ StatusOnly.operator_not r0 = true).
Proof.
  unfold General.operator_bool, General.operator_not, General.status,
    StatusOnly.operator_bool, StatusOnly.operator_not, StatusOnly.status.
  repeat split; try reflexivity.
  - destruct (to_bool (General.sstatus r)); now split.
  - destruct (to_bool (StatusOnly.sstatus r0)); now split.
Qed.

(** C9: for a status type that is not trivially copyable, instantiating
    the general form (with any value type) and instantiating the
    status-only form are both ill-formed, and the diagnostic is the
    message of the [static_assert], which names [_StatusType] and the
    requirement. *)
Theorem status_return_rejects_non_trivially_copyable
    (_StatusType : Cxx.type_traits) (_ValueType : Cxx.type_traits) :
  Cxx.is_trivially_copyable _StatusType = false ->
  let diagnostic :=
    "_StatusType needs to be trivially copyable, like a plain old value, like bool, int or enum, or a class with a default copy ctor" in
  instantiate_status_return _StatusType (Some _ValueType) = Cxx.Ill_formed diagnostic
  /\ instantiate_status_return _StatusType None = Cxx.Ill_formed diagnostic
  /\ contains "_StatusType needs to be trivially copyable" diagnostic.
Proof.
  intros Hno diagnostic. cbn.
  unfold General.instantiate, StatusOnly.instantiate, Cxx.static_assert.
  rewrite Hno. repeat split.
  exists EmptyString. eexists. reflexivity.
Qed.

Lemma status_return_rejects_non_trivially_copyable_witness :
  Cxx.is_trivially_copyable {| Cxx.is_trivially_copyable := false |} = false
  /\ instantiate_status_return {| Cxx.is_trivially_copyable := false |}
       (Some {| Cxx.is_trivially_copyable := true |})
     = Cxx.Ill_formed
         "_StatusType needs to be trivially copyable, like a plain old value, like bool, int or enum, or a class with a default copy ctor"
  /\ instantiate_status_return {| Cxx.is_trivially_copyable := false |} None
     = Cxx.Ill_formed
         "_StatusType needs to be trivially copyable, like a plain old value, like bool, int or enum, or a class with a default copy ctor".
Proof.
  split; [reflexivity |].
  pose proof (status_return_rejects_non_trivially_copyable
                {| Cxx.is_trivially_copyable := false |}
                {| Cxx.is_trivially_copyable := true |} eq_refl) as (Hgen & Hvoid & _).
  exact (conj Hgen Hvoid).
Defined.

(** ** The macros *)

Section Macro_properties.

Context {status V R G : Type}.
Context {status_ops : StatusType status} {value_ops : ValueType V}.
Context {receives : Receives R V}.

Local Abbreviation world := (world R G).
Local Abbreviation expr := (expr status R G).
Local Abbreviation stmt := (stmt status R G).

(** C8: a log statement at level [lvl] enters its entry into the log
    exactly when the underlying value of [lvl] is at most that of the
    global log level, and otherwise leaves the log (and everything else)
    as it was; [ctLogError] ... [ctLogVerbose] are that statement at the
    five levels. *)
Theorem ctLogLevel_logs_iff_enabled
    (lvl : log_level) (here : call_site) (text : string) (w : world) :
  ctLogLevel lvl here text w =
    (Normal (status := status) tt,
     if bool_decide (underlying lvl <= underlying (global_log_level w))%nat
     then push_log {| msg_level := lvl; msg_file := file here; msg_line := line here;
                      msg_function := function_signature here; message := text |} w
     else w)
  /\ log (snd (ctLogLevel (status := status) lvl here text w))
     = (if bool_decide (underlying lvl <= underlying (global_log_level w))%nat
        then (log w ++ [ {| msg_level := lvl; msg_file := file here; msg_line := line here;
                            msg_function := function_signature here; message := text |} ])%list
        else log w)
  /\ ctLogError here text w = ctLogLevel (status := status) error here text w
  /\ ctLogWarning here text w = ctLogLevel (status := status) warning here text w
  /\ ctLogInfo here text w = ctLogLevel (status := status) info here text w
  /\ ctLogDebug here text w = ctLogLevel (status := status) debug here text w
  /\ ctLogVerbose here text w = ctLogLevel (status := status) verbose here text w.
Proof.
  split; [| split; [| repeat split]].
  - rewrite ctLogLevel_run. now rewrite level_le_spec.
  - rewrite ctLogLevel_run, level_le_spec.
    now destruct (bool_decide (underlying lvl <= underlying (global_log_level w))%nat).
Qed.

(** C2: when the operation [s] returns a status [st], [ctStatusCall]
    - if [st] converts to [false]: returns [st] from the enclosing
      function, having added exactly one entry, at level error, to the
      log the operation left;
    - if [st] converts to [true]: adds nothing to the log and falls
      through to the next statement, the world being as the operation
      left it. *)
Theorem ctStatusCall_returns_failure_logs_once
    (here : call_site) (s_text : string) (s : expr status) (w w' : world) (st : status) :
  s w = (Value st, w') ->
  (to_bool st = false ->
     let entry := error_entry here
       ("Call: " +:+ s_text +:+ " failed, returned status_code: " +:+ to_text st) in
     ctStatusCall here s_text s w = (Return st, push_log entry w')
     /\ log (push_log entry w') = (log w' ++ [entry])%list
     /\ length (log (push_log entry w')) = Datatypes.S (length (log w')))
  /\ (to_bool st = true ->
        ctStatusCall here s_text s w = (Normal tt, w')).
Proof.
  intros Hcall. split; intros Hb.
  - intros entry. split; [| split].
    + unfold ctStatusCall. run_call Hcall.
    + reflexivity.
    + cbn. rewrite length_app. cbn. lia.
  - unfold ctStatusCall. run_call Hcall.
Qed.

(** C3: when the call [scall] returns a pair and [retval] is a declared
    variable, [ctStatusReturnCall]
    - if the status of the pair converts to [false]: adds one error entry
      to the log and returns that status (the status part alone: the
      value is dropped) from the enclosing function, and every variable,
      [retval] included, is as the call left it;
    - if it converts to [true]: falls through with [retval] holding the
      value of the pair converted to the type of [retval] by the move
      assignment, no other variable changed, none declared, and nothing
      logged; when [retval] has the type of the payload, it holds exactly
      the value of the pair. *)
Theorem ctStatusReturnCall_assigns_on_success_only
    (here : call_site) (retval : string) (scall_text : string)
    (scall : expr (General.status_return status V)) (w w' : world)
    (returned : General.status_return status V) :
  is_Some (locals w' !! retval) ->
  scall w = (Value returned, w') ->
  (to_bool (General.status returned) = false ->
     let entry := error_entry here
       ("Call: " +:+ scall_text +:+ " failed, returned status_code: "
          +:+ to_text (General.status returned)) in
     ctStatusReturnCall here retval scall_text scall w
       = (Return (General.status returned), push_log entry w')
     /\ log (push_log entry w') = (log w' ++ [entry])%list
     /\ locals (push_log entry w') = locals w'
     /\ locals (push_log entry w') !! retval = locals w' !! retval)
  /\ (to_bool (General.status returned) = true ->
        let wf := set_local retval (converted (General.value returned)) w' in
        ctStatusReturnCall here retval scall_text scall w = (Normal tt, wf)
        /\ locals wf !! retval = Some (converted (General.value returned))
        /\ (forall x, x <> retval -> locals wf !! x = locals w' !! x)
        /\ dom (locals wf) = dom (locals w')
        /\ log wf = log w'
        /\ fst (move_assign (status := status) (R := R) retval (General.value returned) w')
           = Normal (moved_from (General.value returned)))
  /\ (forall same v0,
        let run :=
          ctStatusReturnCall (status := status) (V := V) (R := V) (G := G)
            (receives := same_type_receives) here retval scall_text same v0 in
        forall (got : General.status_return status V) v0',
          same v0 = (Value got, v0') ->
          to_bool (General.status got) = true ->
          locals (snd run) !! retval = Some (General.value got)).
Proof.
  intros Hdeclared Hcall. split; [| split].
  - intros Hb entry. split; [| repeat split].
    unfold ctStatusReturnCall. run_call Hcall.
  - intros Hb wf. repeat split.
    + unfold ctStatusReturnCall. run_call Hcall.
    + cbn. apply lookup_insert_eq.
    + intros x Hx. cbn. now apply lookup_insert_ne.
    + cbn. now apply dom_insert_lookup_L.
  - intros same v0 run got v0' Hsame Hgot. unfold run.
    rewrite ctStatusReturnCall_run, Hsame, Hgot. cbn. apply lookup_insert_eq.
Qed.



(** C10: [ctStatusCall], [ctStatusReturnCall] and [ctStatusCallThrow] are
    each the evaluation of their call argument followed by a continuation
    that does not have the argument at hand and leaves the rest of the
    program state alone; so, for every call expression and on every path,
    the state the macro leaves behind is the state one evaluation of the
    call produces. *)
Theorem propagation_macros_evaluate_call_once
    (here : call_site) (text : string) (retval : string) :
  (exists k : status -> stmt unit,
      (forall (s : expr status) (w : world),
          ctStatusCall here text s w = bind (eval s) k w)
      /\ (forall st w, globals (snd (k st w)) = globals w))
  /\ (exists k : General.status_return status V -> stmt unit,
        (forall (scall : expr (General.status_return status V)) (w : world),
            ctStatusReturnCall here retval text scall w = bind (eval scall) k w)
        /\ (forall returned w, globals (snd (k returned w)) = globals w))
  /\ (exists k : status -> stmt unit,
        (forall (s : expr status) (w : world),
            ctStatusCallThrow here text s w = bind (eval s) k w)
        /\ (forall st w, globals (snd (k st w)) = globals w))
  /\ (forall (s : expr status) (w : world),
        globals (snd (ctStatusCall here text s w)) = globals (snd (s w)))
  /\ (forall (scall : expr (General.status_return status V)) (w : world),
        globals (snd (ctStatusReturnCall here retval text scall w))
          = globals (snd (scall w)))
  /\ (forall (s : expr status) (w : world),
        globals (snd (ctStatusCallThrow here text s w)) = globals (snd (s w))).
Proof.
  split; [| split; [| split; [| split; [| split]]]].
  - eexists. split; [intros s w; reflexivity |].
    intros st w. cbn beta. destruct (to_bool st); cbn [negb]; [reflexivity |].
    now rewrite bind_ctLogError.
  - eexists. split; [intros s w; reflexivity |].
    intros returned w. cbn beta.
    destruct (to_bool (General.status returned)); cbn [negb]; [reflexivity |].
    now rewrite bind_ctLogError.
  - eexists. split; [intros s w; reflexivity |].
    intros st w. cbn beta. destruct (to_bool st); cbn [negb]; [reflexivity |].
    now rewrite bind_ctLogError.
  - intros s w. rewrite ctStatusCall_run.
    destruct (s w) as [[a|x] w1]; [destruct (to_bool a) |]; reflexivity.
  - intros s w. rewrite ctStatusReturnCall_run.
    destruct (s w) as [[a|x] w1]; [destruct (to_bool (General.status a)) |]; reflexivity.
  - intros s w. rewrite ctStatusCallThrow_run.
    destruct (s w) as [[a|x] w1]; [destruct (to_bool a) |]; reflexivity.
Qed.

End Macro_properties.

(** ** The scenario, evaluated *)

Import Scenario.

Lemma ctStatusCall_returns_failure_logs_once_witness :
  (op false start = (Value false, ran start)
   /\ ctStatusCall here "op()" (op false) start
      = (Return false,
         push_log (error_entry here "Call: op() failed, returned status_code: 0")
           (ran start)))
  /\ (op true start = (Value true, ran start)
      /\ ctStatusCall here "op()" (op true) start = (Normal tt, ran start)).
Proof.
  split; (split; [reflexivity |]).
  - exact (proj1 (proj1 (ctStatusCall_returns_failure_logs_once
                           here "op()" (op false) start (ran start) false eq_refl)
                        eq_refl)).
  - exact (proj2 (ctStatusCall_returns_failure_logs_once
                    here "op()" (op true) start (ran start) true eq_refl)
                 eq_refl).
Defined.

Lemma ctStatusReturnCall_assigns_on_success_only_witness :
  is_Some (locals (ran start) !! "x")
  /\ (produce_ok start = (Value (General.ctor_status_value true 42%Z), ran start)
      /\ ctStatusReturnCall here "x" "produce()" produce_ok start
         = (Normal tt, set_local "x" 42%Z (ran start))
      /\ locals (set_local "x" 42%Z (ran start)) !! "x" = Some 42%Z)
  /\ (produce_fail start = (Value (General.ctor_status false), ran start)
      /\ ctStatusReturnCall here "x" "produce()" produce_fail start
         = (Return false,
            push_log (error_entry here "Call: produce() failed, returned status_code: 0")
              (ran start))
      /\ log (push_log (error_entry here "Call: produce() failed, returned status_code: 0")
                (ran start))
         = [error_entry here "Call: produce() failed, returned status_code: 0"]
      /\ locals (push_log (error_entry here "Call: produce() failed, returned status_code: 0")
                   (ran start)) !! "x" = Some 7%Z).
Proof.
  assert (start_declares_x : is_Some (locals (ran start) !! "x"))
    by (exists 7%Z; apply lookup_singleton_eq).
  split; [exact start_declares_x |].
  split; (split; [reflexivity |]).
  - pose proof (ctStatusReturnCall_assigns_on_success_only
                  here "x" "produce()" produce_ok start (ran start)
                  (General.ctor_status_value true 42%Z)
                  start_declares_x eq_refl) as (_ & Hok & _).
    destruct (Hok eq_refl) as (Hrun & Hx & _).
    exact (conj Hrun Hx).
  - pose proof (ctStatusReturnCall_assigns_on_success_only
                  here "x" "produce()" produce_fail start (ran start)
                  (General.ctor_status false)
                  start_declares_x eq_refl) as (Hfail & _ & _).
    destruct (Hfail eq_refl) as (Hrun & Hlog & _ & Hx).
    split; [exact Hrun |]. split; [exact Hlog |].
    etransitivity; [exact Hx | apply lookup_singleton_eq].
Defined.

(** Against C3 as first stated, for every receiving variable: an [int x]
    that receives the [long long] payload 4294967301 of a successful call
    holds 5 afterwards, not the payload. *)
Lemma ctStatusReturnCall_narrows_payload_into_int :
  Conversions.produce_big start
    = (Value (General.ctor_status_value true 4294967301%Z), ran start)
  /\ to_bool (General.status (General.ctor_status_value true 4294967301%Z)) = true
  /\ locals (snd (ctStatusReturnCall (receives := Conversions.int_receives_long_long)
                    here "x" "produce_big()" Conversions.produce_big start)) !! "x"
     = Some 5%Z
  /\ locals (snd (ctStatusReturnCall (receives := Conversions.int_receives_long_long)
                    here "x" "produce_big()" Conversions.produce_big start)) !! "x"
     <> Some (General.value (General.ctor_status_value true 4294967301%Z)).
Proof.
  assert (Hx : locals (snd (ctStatusReturnCall
                              (receives := Conversions.int_receives_long_long)
                              here "x" "produce_big()" Conversions.produce_big start)) !! "x"
               = Some 5%Z).
  { rewrite ctStatusReturnCall_run.
    change (<["x" := Conversions.to_int 4294967301%Z]> (locals (ran start)) !! "x" = Some 5%Z).
    rewrite lookup_insert_eq. reflexivity. }
  split; [reflexivity |]. split; [reflexivity |]. split; [exact Hx |].
  rewrite Hx. discriminate.
Qed.



(** The callee of a propagation macro has run once when the macro is done,
    whichever way the macro leaves. *)
Example callee_ran_once :
  globals (snd (ctStatusCall here "op()" (op false) start)) = 1
  /\ globals (snd (ctStatusCall here "op()" (op true) start)) = 1
  /\ globals (snd (ctStatusReturnCall here "x" "produce()" produce_ok start)) = 1
  /\ globals (snd (ctStatusReturnCall here "x" "produce()" produce_fail start)) = 1
  /\ globals (snd (ctStatusCallThrow here "op()" (op false) start)) = 1
  /\ globals (snd (ctStatusCallThrow here "op()" (op true) start)) = 1.
Proof. repeat split. Qed.

Example stringize_line : _CTLE_STRINGIZE 17 = "17".
Proof. reflexivity. Qed.

(** * Further properties *)

(** ** [status_return]: copies, moves and the reference to the value *)

(** X1: the copy constructor yields an object equal to its source, in both
    forms of the template; the move constructor yields that same object
    and leaves the source with its status, and so its conversion to
    [bool], intact, the value alone being moved from. *)
Theorem status_return_copy_and_move
    (S V : Type) (status_ops : StatusType S) (value_ops : ValueType V)
    (r : General.status_return S V) (r0 : StatusOnly.status_return S) :
  General.ctor_copy r = r
  /\ fst (General.ctor_move r) = r
  /\ General.status (snd (General.ctor_move r)) = General.status r
  /\ General.operator_bool (snd (General.ctor_move r)) = General.operator_bool r
  /\ General.value (snd (General.ctor_move r)) = moved_from (General.value r)
  /\ StatusOnly.ctor_copy r0 = r0
  /\ StatusOnly.ctor_move r0 = (r0, r0).
Proof. destruct r, r0. repeat split. Qed.

(** X2: what is written through the reference [value()] returns is what
    [value()] reads next, the last write wins, writing back what was
    read changes nothing, and no write or move through [value()] alters
    [status()] or the conversion to [bool]. *)
Theorem status_return_value_reference_laws
    (S V : Type) (status_ops : StatusType S) (value_ops : ValueType V)
    (r : General.status_return S V) (v v' : V) :
  General.value (assign_value r v) = v
  /\ assign_value (assign_value r v) v' = assign_value r v'
  /\ assign_value r (General.value r) = r
  /\ General.status (assign_value r v) = General.status r
  /\ General.operator_bool (assign_value r v) = General.operator_bool r
  /\ fst (take_value r) = General.value r
  /\ General.status (snd (take_value r)) = General.status r
  /\ General.operator_not (snd (take_value r)) = General.operator_not r.
Proof. destruct r. repeat split. Qed.

(** ** Inclusion of [_macros.inl] *)

Lemma include_macros_inl_included (defined defined' : gset string) :
  Preprocessor.include_macros_inl defined = Preprocessor.Included defined' ->
  (Preprocessor._CTLE_MACROS_INCLUDED ∉ defined)
  /\ defined' =
       defined ∪ {[ Preprocessor._CTLE_MACROS_INCLUDED ]}
         ∪ (match Preprocessor.function_signature_macro defined with
            | Some _ => {[ "_CTLE_FUNCTION_SIGNATURE" ]}
            | None => ∅
            end)
         ∪ list_to_set Preprocessor.convenience_macros.
Proof.
  unfold Preprocessor.include_macros_inl.
  destruct (decide (Preprocessor._CTLE_MACROS_INCLUDED ∈ defined)) as [Hin|Hout];
    [discriminate |].
  intros Hfirst. split; [exact Hout | congruence].
Qed.

(** X3: including [_macros.inl] stops at the [#error] exactly when the
    marker [_CTLE_MACROS_INCLUDED] is already defined; an inclusion that
    goes through defines the marker, so a second inclusion right after it
    always stops at the [#error]. *)
Theorem include_macros_inl_twice_is_error (defined defined' : gset string) :
  Preprocessor.include_macros_inl defined = Preprocessor.Included defined' ->
  (Preprocessor._CTLE_MACROS_INCLUDED ∉ defined)
  /\ (Preprocessor._CTLE_MACROS_INCLUDED ∈ defined')
  /\ (exists message,
        Preprocessor.include_macros_inl defined' = Preprocessor.Error_directive message)
  /\ (forall d : gset string,
        (exists message,
            Preprocessor.include_macros_inl d = Preprocessor.Error_directive message)
        <-> Preprocessor._CTLE_MACROS_INCLUDED ∈ d)
  /\ (forall d : gset string,
        (exists d', Preprocessor.include_macros_inl d = Preprocessor.Included d')
        <-> Preprocessor._CTLE_MACROS_INCLUDED ∉ d).
Proof.
  intros Hfirst.
  assert (Herror : forall d : gset string,
             (exists message,
                 Preprocessor.include_macros_inl d = Preprocessor.Error_directive message)
             <-> Preprocessor._CTLE_MACROS_INCLUDED ∈ d).
  { intros d. unfold Preprocessor.include_macros_inl.
    destruct (decide (Preprocessor._CTLE_MACROS_INCLUDED ∈ d)) as [Hin|Hout].
    - split; [intros _; exact Hin | intros _; eexists; reflexivity].
    - split; [intros [message Hm]; discriminate Hm | intros Hin; contradiction]. }
  assert (Hthrough : forall d : gset string,
             (exists d', Preprocessor.include_macros_inl d = Preprocessor.Included d')
             <-> Preprocessor._CTLE_MACROS_INCLUDED ∉ d).
  { intros d. unfold Preprocessor.include_macros_inl.
    destruct (decide (Preprocessor._CTLE_MACROS_INCLUDED ∈ d)) as [Hin|Hout].
    - split; [intros [d' Hd]; discriminate Hd | intros Hout; contradiction].
    - split; [intros _; exact Hout | intros _; eexists; reflexivity]. }
  apply include_macros_inl_included in Hfirst as [Hout ->].
  assert (Hmarker : Preprocessor._CTLE_MACROS_INCLUDED
                      ∈ defined ∪ {[Preprocessor._CTLE_MACROS_INCLUDED]}
                          ∪ match Preprocessor.function_signature_macro defined with
                            | Some _ => {["_CTLE_FUNCTION_SIGNATURE"]}
                            | None => ∅
                            end
                          ∪ list_to_set Preprocessor.convenience_macros)
    by (apply elem_of_union_l, elem_of_union_l, elem_of_union_r, elem_of_singleton;
        reflexivity).
  split; [exact Hout |]. split; [exact Hmarker |].
  split; [now apply Herror |]. split; [exact Herror | exact Hthrough].
Qed.


(** ** The macros: the remaining paths *)

Section Usage_properties.

Context {status V R G : Type}.
Context {status_ops : StatusType status} {value_ops : ValueType V}.
Context {receives : Receives R V}.

Local Abbreviation world := (world R G).
Local Abbreviation expr := (expr status R G).
Local Abbreviation stmt := (stmt status R G).

Lemma ctValidate_run (here : call_site)
    (statement : expr bool) (error_code_on_error : expr status) (text : string) (w : world) :
  ctValidate here statement error_code_on_error text w =
    match statement w with
    | (Value true, w1) => (Normal tt, w1)
    | (Value false, w1) =>
        match error_code_on_error w1 with
        | (Value code, w2) => (Return code, push_log (error_entry here text) w2)
        | (Raises e, w2) => (Throw e, w2)
        end
    | (Raises e, w1) => (Throw e, w1)
    end.
Proof.
  unfold ctValidate, bind at 1, eval.
  destruct (statement w) as [[[|]|e] w1]; cbn [negb]; try reflexivity.
  unfold bind at 1.
  destruct (error_code_on_error w1) as [[code|e] w2]; [| reflexivity].
  now rewrite bind_ctLogError.
Qed.

Lemma ctSanityCheck_run (here : call_site) (statement_text : string)
    (statement : expr bool) (w : world) :
  ctSanityCheck false here statement_text statement w =
    match statement w with
    | (Value true, w1) => (Normal tt, w1)
    | (Value false, w1) =>
        (Throw (runtime_error
                  (("SanityCheck " +:+ statement_text +:+ " failed in " +:+ file here
                      +:+ " line " +:+ _CTLE_STRINGIZE (line here) +:+ " function ")
                     +:+ function_signature here)),
         push_log (error_entry here ("SanityCheck failed: " +:+ statement_text)) w1)
    | (Raises e, w1) => (Throw e, w1)
    end.
Proof.
  unfold ctSanityCheck, bind at 1, eval.
  destruct (statement w) as [[[|]|e] w1]; cbn [negb]; try reflexivity.
  now rewrite bind_ctLogError.
Qed.

Lemma log_push_log (m : log_msg) (w : world) : log (push_log m w) = (log w ++ [m])%list.
Proof. reflexivity. Qed.

(** X5: when the call expression itself throws, [ctStatusCall],
    [ctStatusCallThrow] and [ctStatusReturnCall] let that exception
    through unchanged: nothing is logged, nothing is assigned, and the
    world is as the throwing call left it. *)
Theorem propagation_macros_pass_exceptions_through
    (here : call_site) (text retval : string) (s : expr status)
    (scall : expr (General.status_return status V)) (w w' w'' : world)
    (e e' : exception status) :
  s w = (Raises e, w') ->
  scall w = (Raises e', w'') ->
  ctStatusCall here text s w = (Throw e, w')
  /\ ctStatusCallThrow here text s w = (Throw e, w')
  /\ ctStatusReturnCall here retval text scall w = (Throw e', w'').
Proof.
  intros Hs Hscall.
  rewrite ctStatusCall_run, ctStatusCallThrow_run, ctStatusReturnCall_run, Hs, Hscall.
  repeat split.
Qed.

(** X6: [ctValidate] with a statement that holds falls through without
    evaluating the error code and without logging; with a statement that
    does not hold it evaluates the error code once, after the statement,
    adds one error entry with the text given, and returns that code,
    whatever the code converts to. *)
Theorem ctValidate_returns_code_when_statement_fails
    (here : call_site) (statement : expr bool) (error_code_on_error : expr status)
    (text : string) (w w1 w2 : world) (code : status) :
  statement w = (Value false, w1) ->
  error_code_on_error w1 = (Value code, w2) ->
  ctValidate here statement error_code_on_error text w
    = (Return code, push_log (error_entry here text) w2)
  /\ log (push_log (error_entry here text) w2) = (log w2 ++ [error_entry here text])%list
  /\ (forall (holding : expr bool) (any_code : expr status) (w0 w0' : world),
        holding w0 = (Value true, w0') ->
        ctValidate here holding any_code text w0 = (Normal tt, w0')).
Proof.
  intros Hstatement Hcode. split; [| split].
  - now rewrite ctValidate_run, Hstatement, Hcode.
  - reflexivity.
  - intros holding any_code w0 w0' Hholding. now rewrite ctValidate_run, Hholding.
Qed.

(** X7: without [NDEBUG], [ctSanityCheck] of a statement that holds falls
    through with the world as the one evaluation of the statement left
    it, nothing logged; and a statement that throws has its exception
    passed on, again with nothing logged. *)
Theorem ctSanityCheck_passes_when_statement_holds
    (here : call_site) (statement_text : string) (statement : expr bool) (w w' : world) :
  statement w = (Value true, w') ->
  ctSanityCheck false here statement_text statement w = (Normal tt, w')
  /\ (forall (throwing : expr bool) (w0 w0' : world) (e : exception status),
        throwing w0 = (Raises e, w0') ->
        ctSanityCheck false here statement_text throwing w0 = (Throw e, w0')).
Proof.
  intros Hstatement. split.
  - now rewrite ctSanityCheck_run, Hstatement.
  - intros throwing w0 w0' e Hthrowing. now rewrite ctSanityCheck_run, Hthrowing.
Qed.

(** X8: logging is monotone: a statement that logs at level [lvl] under
    some global level still logs under any global level at least as
    high, and so does a statement at any level not above [lvl].  Under
    [verbose] every statement logs; under [error] only an error statement
    does. *)
Theorem ctLogLevel_monotone
    (lvl lvl' : log_level) (here : call_site) (text : string) (w w' : world) :
  level_le lvl (global_log_level w) = true ->
  (underlying (global_log_level w) <= underlying (global_log_level w'))%nat ->
  (underlying lvl' <= underlying lvl)%nat ->
  log (snd (ctLogLevel (status := status) lvl' here text w'))
    = (log w' ++ [ {| msg_level := lvl'; msg_file := file here; msg_line := line here;
                      msg_function := function_signature here; message := text |} ])%list
  /\ (forall (any : log_level) (w0 : world),
        global_log_level w0 = verbose ->
        length (log (snd (ctLogLevel (status := status) any here text w0)))
          = Datatypes.S (length (log w0)))
  /\ (forall (any : log_level) (w0 : world),
        global_log_level w0 = error ->
        any <> error ->
        ctLogLevel any here text w0 = (Normal (status := status) tt, w0)).
Proof.
  intros Henabled Hthreshold Hlevel. split; [| split].
  - rewrite ctLogLevel_run.
    assert (Hle : level_le lvl' (global_log_level w') = true).
    { unfold level_le in *. apply Nat.leb_le. apply Nat.leb_le in Henabled. lia. }
    now rewrite Hle.
  - intros any w0 Hverbose. rewrite ctLogLevel_run, Hverbose.
    destruct any; cbn; rewrite length_app; cbn; lia.
  - intros any w0 Herror Hany. rewrite ctLogLevel_run, Herror.
    destruct any; [contradiction | reflexivity ..].
Qed.

(** X9: [ctLogThis] adds one entry, at level info and with the text of
    the pointer, when the global level is info, debug or verbose, and
    nothing under error or warning. *)
Theorem ctLogThis_logs_from_info_upwards
    (here : call_site) (this_text : string) (w : world) :
  ctLogThis here this_text w =
    (Normal (status := status) tt,
     match global_log_level w with
     | error | warning => w
     | info | debug | verbose =>
         push_log {| msg_level := info; msg_file := file here; msg_line := line here;
                     msg_function := function_signature here; message := this_text |} w
     end)
  /\ log (snd (ctLogThis (status := status) here this_text w))
     = match global_log_level w with
       | error | warning => log w
       | info | debug | verbose =>
           (log w ++ [ {| msg_level := info; msg_file := file here; msg_line := line here;
                          msg_function := function_signature here;
                          message := this_text |} ])%list
       end.
Proof.
  unfold ctLogThis, ctLogInfo. rewrite ctLogLevel_run.
  now destruct (global_log_level w).
Qed.

(** X10: the macros keep the log and the global log level safe: if the
    expressions handed to a macro only add entries after the ones there
    and leave the global level alone, then so does the macro, on every
    path. *)
Theorem macros_only_extend_log
    (here : call_site) (text retval : string) (s : expr status) (b : expr bool)
    (scall : expr (General.status_return status V)) (w : world) :
  respects_log s -> respects_log b -> respects_log scall ->
  Forall (fun m : stmt unit =>
            log w `prefix_of` log (snd (m w))
            /\ global_log_level (snd (m w)) = global_log_level w)
    [ ctStatusCall here text s;
      ctStatusCallThrow here text s;
      ctStatusReturnCall here retval text scall;
      ctValidate here b s text;
      ctSanityCheck false here text b;
      ctSanityCheck true here text b ].
Proof.
  intros Hs Hb Hscall.
  assert (Hpush : forall m w1, log w `prefix_of` log w1 ->
                               log w `prefix_of` log (push_log m w1 : world))
    by (intros m w1 Hp; rewrite log_push_log; now apply prefix_app_r).
  repeat apply Forall_cons_2; [.. | apply Forall_nil_2].
  - rewrite ctStatusCall_run. destruct (Hs w) as [Hp Hg].
    destruct (s w) as [[st|e] w1]; [destruct (to_bool st) |]; cbn in *; auto.
  - rewrite ctStatusCallThrow_run. destruct (Hs w) as [Hp Hg].
    destruct (s w) as [[st|e] w1]; [destruct (to_bool st) |]; cbn in *; auto.
  - rewrite ctStatusReturnCall_run. destruct (Hscall w) as [Hp Hg].
    destruct (scall w) as [[r|e] w1]; [destruct (to_bool (General.status r)) |];
      cbn in *; auto.
  - rewrite ctValidate_run. destruct (Hb w) as [Hp Hg].
    destruct (b w) as [[[|]|e] w1]; cbn in *; auto.
    destruct (Hs w1) as [Hp1 Hg1].
    destruct (s w1) as [[code|e] w2]; cbn in *.
    + split; [apply Hpush; now transitivity (log w1) | congruence].
    + split; [now transitivity (log w1) | congruence].
  - rewrite ctSanityCheck_run. destruct (Hb w) as [Hp Hg].
    destruct (b w) as [[[|]|e] w1]; cbn in *; auto.
  - cbn. split; reflexivity.
Qed.

End Usage_properties.

(** ** The macros composed *)

Section Composition.

Context {status V R G : Type}.
Context {status_ops : StatusType status} {value_ops : ValueType V}.
Context {receives : Receives R V}.

Local Abbreviation world := (world R G).
Local Abbreviation expr := (expr status R G).
Local Abbreviation stmt := (stmt status R G).

Lemma status_calls_all_succeed
    (calls : list (call_site * string * expr status)) (w w' : world) :
  all_succeed calls w w' -> status_calls calls w = (Normal tt, w').
Proof.
  induction 1 as [w | c rest w w1 w2 st Hcall Hok Hrest IH]; [reflexivity |].
  cbn [status_calls]. unfold bind at 1.
  now rewrite ctStatusCall_run, Hcall, Hok.
Qed.

(** X11: in a body made of [ctStatusCall]s, the first call whose status
    converts to [false] ends the body: its status is returned, its one
    error entry is the only thing the macros add to what the calls did
    themselves, and none of the calls after it is evaluated, whatever
    they are. *)
Theorem status_calls_stop_at_first_failure
    (before after : list (call_site * string * expr status))
    (here : call_site) (text : string) (s : expr status)
    (w w1 w2 : world) (st : status) :
  all_succeed before w w1 ->
  s w1 = (Value st, w2) ->
  to_bool st = false ->
  status_calls (before ++ (here, text, s) :: after) w
    = (Return st,
       push_log (error_entry here
         ("Call: " +:+ text +:+ " failed, returned status_code: " +:+ to_text st)) w2)
  /\ log (push_log (error_entry here
            ("Call: " +:+ text +:+ " failed, returned status_code: " +:+ to_text st)) w2)
     = (log w2 ++ [error_entry here
            ("Call: " +:+ text +:+ " failed, returned status_code: " +:+ to_text st)])%list
  /\ status_calls before w = (Normal tt, w1).
Proof.
  intros Hbefore Hcall Hfail.
  split; [| split; [reflexivity | now apply status_calls_all_succeed]].
  induction Hbefore as [w | c rest w w1 w3 st' Hc Hok Hrest IH].
  - cbn [app status_calls fst snd]. unfold bind at 1.
    now rewrite ctStatusCall_run, Hcall, Hfail.
  - cbn [app status_calls]. unfold bind at 1.
    rewrite ctStatusCall_run, Hc, Hok. now apply IH.
Qed.

(** X12: a failure is logged again at every [ctStatusCall] it passes: when
    [op] returns a status that converts to [false] and is reached through
    a chain of functions that each forward it with [ctStatusCall], the
    outermost call yields that same status, and the log holds, after what
    [op] left, one error entry per site of the chain, innermost first.
    The caller's variables and the global level are untouched by the
    chain. *)
Theorem forwarded_failure_is_logged_at_every_site
    (sites : list (call_site * string)) (site : call_site * string)
    (op : expr status) (ok : status) (w w1 : world) (st : status) :
  op (enter_frame w) = (Value st, w1) ->
  to_bool st = false ->
  forwarded (site :: sites) op ok w
    = (Value st,
       {| log := log w1 ++ rev (map (call_failed_entry st) (site :: sites));
          global_log_level := global_log_level w1;
          locals := locals w;
          globals := globals w1 |})
  /\ length (rev (map (call_failed_entry st) (site :: sites)))
     = Datatypes.S (length sites).
Proof.
  intros Hop Hfail. split; [| now rewrite length_rev, length_map].
  revert site w Hop.
  induction sites as [| next sites IH]; intros site w Hop.
  - cbn [forwarded]. unfold call_function.
    now rewrite ctStatusCall_run, Hop, Hfail.
  - change (forwarded (site :: next :: sites) op ok w)
      with (call_function
              (ctStatusCall (fst site) (snd site) (forwarded (next :: sites) op ok)) ok w).
    unfold call_function. rewrite ctStatusCall_run.
    rewrite (IH next (enter_frame w) Hop), Hfail.
    unfold leave_frame, push_log. cbn [log global_log_level locals globals].
    do 2 f_equal.
    change (map (call_failed_entry st) (site :: next :: sites))
      with (call_failed_entry st site :: map (call_failed_entry st) (next :: sites)).
    change (rev (call_failed_entry st site :: map (call_failed_entry st) (next :: sites)))
      with (rev (map (call_failed_entry st) (next :: sites)) ++ [call_failed_entry st site])%list.
    now rewrite app_assoc.
Qed.

(** X13: a failure forwarded out of a function that returns a
    [status_return]: the status [ctStatusCall] returns inside the function
    reaches the caller as a pair built by the converting constructor, so
    with a value-initialised payload and converting to [false]; a
    [ctStatusReturnCall] on that call then returns the same status, leaves
    the receiving variable and every other variable of the caller as
    they were, and the log holds the inner entry followed by the outer
    one. *)
Theorem failure_forwarded_through_pair_function
    (inner outer : call_site) (inner_text outer_text retval : string)
    (op : expr status) (result : General.status_return status V)
    (w w1 : world) (st : status) :
  op (enter_frame w) = (Value st, w1) ->
  to_bool st = false ->
  let f := call_pair_function (ctStatusCall inner inner_text op) result in
  let inner_entry := call_failed_entry st (inner, inner_text) in
  let outer_entry := call_failed_entry st (outer, outer_text) in
  fst (f w) = Value (General.ctor_status st)
  /\ General.value (General.ctor_status (V := V) st) = value_init
  /\ General.operator_bool (General.ctor_status (V := V) st) = false
  /\ ctStatusReturnCall outer retval outer_text f w
     = (Return st,
        {| log := log w1 ++ [inner_entry; outer_entry];
           global_log_level := global_log_level w1;
           locals := locals w;
           globals := globals w1 |}).
Proof.
  intros Hop Hfail f inner_entry outer_entry.
  assert (Hf : f w = (Value (General.ctor_status st),
                      leave_frame w (push_log inner_entry w1))).
  { unfold f, call_pair_function. now rewrite ctStatusCall_run, Hop, Hfail. }
  split; [now rewrite Hf |]. split; [reflexivity |]. split; [exact Hfail |].
  rewrite ctStatusReturnCall_run, Hf.
  change (General.status (General.ctor_status (V := V) st)) with st. rewrite Hfail.
  unfold leave_frame, push_log. cbn [log global_log_level locals globals].
  do 2 f_equal. now rewrite <- app_assoc.
Qed.

End Composition.

(** ** The further properties, evaluated *)

Import More_scenario.

Lemma propagation_macros_pass_exceptions_through_witness :
  op_throws start = (Raises (runtime_error "out of disk"), ran start)
  /\ produce_throws start = (Raises (runtime_error "out of disk"), ran start)
  /\ ctStatusCall here "op()" op_throws start
     = (Throw (runtime_error "out of disk"), ran start)
  /\ ctStatusCallThrow here "op()" op_throws start
     = (Throw (runtime_error "out of disk"), ran start)
  /\ ctStatusReturnCall here "x" "op()" produce_throws start
     = (Throw (runtime_error "out of disk"), ran start).
Proof.
  split; [reflexivity |]. split; [reflexivity |].
  exact (propagation_macros_pass_exceptions_through
           here "op()" "x" op_throws produce_throws start (ran start) (ran start)
           (runtime_error "out of disk") (runtime_error "out of disk") eq_refl eq_refl).
Defined.

Lemma status_calls_stop_at_first_failure_witness :
  all_succeed [(here, "first()", op true)] start (ran start)
  /\ op false (ran start) = (Value false, ran (ran start))
  /\ status_calls
       [(here, "first()", op true); (outer, "second()", op false);
        (here, "third()", op_throws)] start
     = (Return false,
        push_log (error_entry outer "Call: second() failed, returned status_code: 0")
          (ran (ran start)))
  /\ log (push_log (error_entry outer "Call: second() failed, returned status_code: 0")
            (ran (ran start)))
     = [error_entry outer "Call: second() failed, returned status_code: 0"].
Proof.
  assert (Hfirst : all_succeed [(here, "first()", op true)] start (ran start)).
  { apply (all_succeed_cons (here, "first()", op true) [] start (ran start) (ran start) true);
      [reflexivity | reflexivity | apply all_succeed_nil]. }
  split; [exact Hfirst |]. split; [reflexivity |].
  pose proof (status_calls_stop_at_first_failure
                [(here, "first()", op true)] [(here, "third()", op_throws)]
                outer "second()" (op false) start (ran start) (ran (ran start)) false
                Hfirst eq_refl eq_refl) as (Hrun & Hlog & _).
  exact (conj Hrun Hlog).
Defined.

Lemma forwarded_failure_is_logged_at_every_site_witness :
  op false (enter_frame start) = (Value false, ran (enter_frame start))
  /\ forwarded [(outer, "middle()"); (here, "inner()")] (op false) true start
     = (Value false,
        {| log := [ error_entry here "Call: inner() failed, returned status_code: 0";
                    error_entry outer "Call: middle() failed, returned status_code: 0" ];
           global_log_level := info;
           locals := locals start;
           globals := 1 |}).
Proof.
  split; [reflexivity |].
  exact (proj1 (forwarded_failure_is_logged_at_every_site
                  [(here, "inner()")] (outer, "middle()") (op false) true
                  start (ran (enter_frame start)) false eq_refl eq_refl)).
Defined.

Lemma failure_forwarded_through_pair_function_witness :
  op false (enter_frame start) = (Value false, ran (enter_frame start))
  /\ ctStatusReturnCall outer "x" "produce()"
       (call_pair_function (ctStatusCall here "op()" (op false))
          (General.ctor_status_value true 42%Z)) start
     = (Return false,
        {| log := [ error_entry here "Call: op() failed, returned status_code: 0";
                    error_entry outer "Call: produce() failed, returned status_code: 0" ];
           global_log_level := info;
           locals := locals start;
           globals := 1 |}).
Proof.
  split; [reflexivity |].
  pose proof (failure_forwarded_through_pair_function
                here outer "op()" "produce()" "x" (op false)
                (General.ctor_status_value true 42%Z)
                start (ran (enter_frame start)) false eq_refl eq_refl) as (_ & _ & _ & Hrun).
  exact Hrun.
Defined.

Lemma ctValidate_returns_code_when_statement_fails_witness :
  op false start = (Value false, ran start)
  /\ op false (ran start) = (Value false, ran (ran start))
  /\ ctValidate here (op false) (op false) "count must be positive" start
     = (Return false, push_log (error_entry here "count must be positive") (ran (ran start)))
  /\ log (push_log (error_entry here "count must be positive") (ran (ran start)))
     = [error_entry here "count must be positive"]
  /\ ctValidate here (op true) op_throws "count must be positive" start
     = (Normal tt, ran start).
Proof.
  split; [reflexivity |]. split; [reflexivity |].
  pose proof (ctValidate_returns_code_when_statement_fails
                here (op false) (op false) "count must be positive"
                start (ran start) (ran (ran start)) false eq_refl eq_refl)
    as (Hfail & Hlog & Hok).
  split; [exact Hfail |]. split; [exact Hlog |].
  exact (Hok (op true) op_throws start (ran start) eq_refl).
Defined.

Lemma ctSanityCheck_passes_when_statement_holds_witness :
  op true start = (Value true, ran start)
  /\ ctSanityCheck false here "n > 0" (op true) start = (Normal tt, ran start)
  /\ ctSanityCheck false here "n > 0" op_throws start
     = (Throw (runtime_error "out of disk"), ran start).
Proof.
  split; [reflexivity |].
  pose proof (ctSanityCheck_passes_when_statement_holds
                here "n > 0" (op true) start (ran start) eq_refl) as (Hpass & Hthrow).
  split; [exact Hpass |].
  exact (Hthrow op_throws start (ran start) (runtime_error "out of disk") eq_refl).
Defined.

Lemma ctLogLevel_monotone_witness :
  level_le info (global_log_level start) = true
  /\ (underlying (global_log_level start) <= underlying (global_log_level chatty))%nat
  /\ (underlying warning <= underlying info)%nat
  /\ log (snd (ctLogLevel (status := bool) warning here "low on memory" chatty))
     = [ {| msg_level := warning; msg_file := "caller.cpp"; msg_line := 17;
            msg_function := "bool caller()"; message := "low on memory" |} ].
Proof.
  assert (Hthreshold :
            (underlying (global_log_level start) <= underlying (global_log_level chatty))%nat)
    by (cbn; lia).
  assert (Hlevel : (underlying warning <= underlying info)%nat) by (cbn; lia).
  split; [reflexivity |]. split; [exact Hthreshold |]. split; [exact Hlevel |].
  exact (proj1 (ctLogLevel_monotone (status := bool) info warning here "low on memory"
                  start chatty eq_refl Hthreshold Hlevel)).
Defined.

Lemma macros_only_extend_log_witness :
  respects_log (op false)
  /\ respects_log produce_ok
  /\ log start `prefix_of`
       log (snd (ctStatusCall here "op()" (op false) start))
  /\ global_log_level (snd (ctStatusCall here "op()" (op false) start)) = info.
Proof.
  assert (Hop : respects_log (op false)) by (intros w; split; reflexivity).
  assert (Hproduce : respects_log produce_ok) by (intros w; split; reflexivity).
  split; [exact Hop |]. split; [exact Hproduce |].
  pose proof (macros_only_extend_log here "op()" "x" (op false) (op false) produce_ok start
                Hop Hop Hproduce) as Hall.
  exact (Forall_inv Hall).
Defined.

Lemma include_macros_inl_twice_is_error_witness :
  exists defined' : gset string,
    Preprocessor.include_macros_inl {[ "__GNUC__" ]} = Preprocessor.Included defined'
    /\ (exists message,
          Preprocessor.include_macros_inl defined' = Preprocessor.Error_directive message)
    /\ ((exists message,
            Preprocessor.include_macros_inl {[ "__GNUC__" ]}
              = Preprocessor.Error_directive message)
        <-> Preprocessor._CTLE_MACROS_INCLUDED ∈ ({[ "__GNUC__" ]} : gset string)).
Proof.
  eexists. split; [reflexivity |].
  pose proof (include_macros_inl_twice_is_error {[ "__GNUC__" ]} _ eq_refl)
    as (_ & _ & Hsecond & Herror & _).
  exact (conj Hsecond (Herror {[ "__GNUC__" ]})).
Defined.

